(** * datalad.distribution.drop: dropping dataset content

    A shallow embedding of [src/datalad/distribution/drop.py]: the helper
    generator [_drop_files] and the public generator [Drop.__call__].

    A Python generator is modelled by the finite trace of what it does, in the
    order it does it: the result records it yields, the call of the
    cleanliness guard and the calls of the repository's [drop], together with
    the way it ends (exhausted, or an exception raised to the consumer).

    Collaborators that live outside the file (the dataset's repository, path
    resolution, the dirty-state test, the translation tables) are fields of a
    [World]; the small helpers of [datalad.interface.results] and
    [datalad.utils] that the file calls are modelled next to the code. *)

From stdpp Require Import gmap strings list fin_maps.
From Stdlib Require Import Ascii.

Local Open Scope string_scope.

(* ===================================================================== *)
(** ** Paths ([os.path])                                                  *)
(* ===================================================================== *)

Module OsPath.

(** [os.path.isabs] (posix): the path starts with a slash. *)
Definition isabs (p : string) : bool :=
  match p with
  | String "/" _ => true
  | _ => false
  end.

Fixpoint ends_with_sep (p : string) : bool :=
  match p with
  | "" => false
  | String c "" => Ascii.eqb c "/"
  | String _ rest => ends_with_sep rest
  end.

(** [os.path.join] of two components. *)
Definition opj (a b : string) : string :=
  if isabs b then b
  else if String.eqb a "" || ends_with_sep a then a +:+ b
  else a +:+ "/" +:+ b.

(** [str.split('/')], the current component being accumulated in [cur]. *)
Fixpoint split_sep (cur : string) (p : string) : list string :=
  match p with
  | "" => [cur]
  | String c rest =>
      if Ascii.eqb c "/" then cur :: split_sep "" rest
      else split_sep (cur +:+ String c "") rest
  end.

(** The loop of [normpath] over the components; [new_comps] is kept in
    reverse, so that its head is Python's [new_comps[-1]]. *)
Fixpoint norm_comps (initial_slashes : nat) (new_comps : list string)
         (comps : list string) : list string :=
  match comps with
  | [] => rev new_comps
  | comp :: comps' =>
      if String.eqb comp "" || String.eqb comp "." then
        norm_comps initial_slashes new_comps comps'
      else if negb (String.eqb comp "..")
              || (Nat.eqb initial_slashes 0 && bool_decide (new_comps = []))
              || (match new_comps with
                  | top :: _ => String.eqb top ".."
                  | [] => false
                  end)
      then norm_comps initial_slashes (comp :: new_comps) comps'
      else match new_comps with
           | _ :: popped => norm_comps initial_slashes popped comps'
           | [] => norm_comps initial_slashes new_comps comps'
           end
  end.

Fixpoint join_sep (comps : list string) : string :=
  match comps with
  | [] => ""
  | [c] => c
  | c :: rest => c +:+ "/" +:+ join_sep rest
  end.

Definition starts_with (pre p : string) : bool := String.prefix pre p.

(** [os.path.normpath] (posix). *)
Definition normpath (p : string) : string :=
  if String.eqb p "" then "."
  else
    let initial_slashes :=
      if starts_with "/" p then
        if starts_with "//" p && negb (starts_with "///" p) then 2 else 1
      else 0 in
    let comps := norm_comps initial_slashes [] (split_sep "" p) in
    let path := join_sep comps in
    let path :=
      match initial_slashes with
      | 0 => path
      | 1 => "/" +:+ path
      | _ => "//" +:+ path
      end in
    if String.eqb path "" then "." else path.

End OsPath.

(* ===================================================================== *)
(** ** Result records                                                     *)
(* ===================================================================== *)

(** The four values of a result's ['status']. *)
Inductive Status := ok | notneeded | impossible | error.

#[global] Instance Status_eq_dec : EqDecision Status.
Proof. solve_decision. Defined.

(** The status strings as the code writes them. *)
Definition status_str (s : Status) : string :=
  match s with
  | ok => "ok"
  | notneeded => "notneeded"
  | impossible => "impossible"
  | error => "error"
  end.

(** A result dict, restricted to the keys this module sets or passes on. *)
Record StatusRecord := mkStatusRecord {
  action : option string;
  path : string;
  type_ : option string;
  logger : option string;
  refds : option string;
  status : Status;
  message : string;
}.

#[global] Instance StatusRecord_eq_dec : EqDecision StatusRecord.
Proof. solve_decision. Defined.

(** The [**kwargs] payload of [_drop_files]: Drop.__call__ passes
    [action], [logger] and [refds]; a key may be absent. *)
Record Kwargs := mkKwargs {
  kw_action : option string;
  kw_logger : option string;
  kw_refds : option string;
}.

(** Python's [fmt % args] for the [%s] directive. With too few arguments
    Python raises; the templates of this module are always filled with as
    many arguments as they have directives, and the directive is left in
    place here. *)
Fixpoint pyformat (fmt : string) (args : list string) : string :=
  match fmt with
  | "" => ""
  | String "%" (String "s" rest) =>
      match args with
      | a :: args' => a +:+ pyformat rest args'
      | [] => "%s" +:+ pyformat rest []
      end
  | String c rest => String c (pyformat rest args)
  end.

(* ===================================================================== *)
(** ** Arguments of the call                                              *)
(* ===================================================================== *)

(** A [path]/[paths] argument: [None], one path given as a string, or a
    list of paths. *)
Inductive PathsArg :=
| PNone
| PStr (p : string)
| PList (ps : list string).

(** The [dataset] argument when it is not [None]: a [Dataset] instance or a
    string holding its path. *)
Inductive DatasetArg :=
| DsObj (ds_path : string)
| DsStr (s : string).

(** The [if_dirty] modes: ['save-before'], ['ignore'], ['fail']. *)
Inductive DirtyPolicy := if_dirty_save_before | if_dirty_ignore | if_dirty_fail.

(** Truth value of the [path] argument ([not path] is its negation). *)
Definition path_truthy (path : PathsArg) : bool :=
  match path with
  | PNone => false
  | PStr p => negb (String.eqb p "")
  | PList ps => match ps with [] => false | _ => true end
  end.

(** Truth value of the [dataset] argument. *)
Definition dataset_truthy (dataset : option DatasetArg) : bool :=
  match dataset with
  | None => false
  | Some (DsObj _) => true
  | Some (DsStr s) => negb (String.eqb s "")
  end.

(** [dataset.path if isinstance(dataset, Dataset) else dataset]; the result
    is [None] when [dataset] is. *)
Definition dataset_path_or_self (dataset : option DatasetArg) : option string :=
  match dataset with
  | None => None
  | Some (DsObj p) => Some p
  | Some (DsStr s) => Some s
  end.

(* ===================================================================== *)
(** ** Generators as traces                                               *)
(* ===================================================================== *)

(** One raw report of the repository's [drop]: the file it is about, the
    store's outcome code and its note. *)
Record RawOutcome := mkRawOutcome {
  raw_file : string;
  raw_code : string;
  raw_note : string;
}.

Inductive exn :=
| DirtyDatasetError (ds_path : string).

Inductive event :=
| EvYield (r : StatusRecord)
| EvGuard (dpaths : list string) (mode : DirtyPolicy) (base : option DatasetArg)
| EvStoreDrop (ds_path : string) (paths : list string) (options : list string).

(** What a piece of generator code does: its events in order, and either the
    exception that ends it or its value. *)
Definition Gen (A : Type) : Type := list event * (exn + A).

#[global] Instance Gen_ret : MRet Gen := fun A a => ([], inr a).

#[global] Instance Gen_bind : MBind Gen := fun A B f m =>
  match m with
  | (tr, inl e) => (tr, inl e)
  | (tr, inr a) => let '(tr', r) := f a in ((tr ++ tr')%list, r)
  end.

Definition yield (r : StatusRecord) : Gen unit := ([EvYield r], inr tt).
Definition raise {A} (e : exn) : Gen A := ([], inl e).
Definition emit (ev : event) : Gen unit := ([ev], inr tt).

(** [for x in xs: body x] *)
Fixpoint for_each {A} (xs : list A) (body : A → Gen unit) : Gen unit :=
  match xs with
  | [] => mret tt
  | x :: xs' => _ ← body x; for_each xs' body
  end.

(** A loop that updates a local variable: [for x in xs: acc = body acc x]. *)
Fixpoint for_fold {A S} (xs : list A) (acc : S) (body : S → A → Gen S) : Gen S :=
  match xs with
  | [] => mret acc
  | x :: xs' => acc' ← body acc x; for_fold xs' acc' body
  end.

Definition trace {A} (g : Gen A) : list event := fst g.
Definition outcome {A} (g : Gen A) : exn + A := snd g.

(** The records of a trace, in the order they were yielded. *)
Definition yields (tr : list event) : list StatusRecord :=
  omap (fun ev => match ev with EvYield r => Some r | _ => None end) tr.

(** The calls of the repository's [drop] in a trace. *)
Definition store_calls (tr : list event) : list (string * list string * list string) :=
  omap (fun ev => match ev with
                  | EvStoreDrop d ps os => Some (d, ps, os)
                  | _ => None
                  end) tr.

(** The calls of the cleanliness guard in a trace. *)
Definition guard_calls (tr : list event) : list (list string * DirtyPolicy) :=
  omap (fun ev => match ev with
                  | EvGuard ds m _ => Some (ds, m)
                  | _ => None
                  end) tr.

(* ===================================================================== *)
(** ** The world outside this module                                      *)
(* ===================================================================== *)

Record World := mkWorld {
  (** [hasattr(Dataset(ds_path).repo, 'drop')] *)
  has_drop : string → bool;
  (** [Dataset(ds_path).repo.drop(paths, options=opts)] *)
  repo_drop : string → list string → list string → list RawOutcome;
  (** the store's outcome codes as result statuses (annexjson2result) *)
  status_of_code : string → Status;
  (** the table [success_status_map] *)
  success_status_map : Status → string;
  (** [Interface._prep]: the items of [content_by_ds] in iteration order,
      and [unavailable_paths] *)
  _prep : PathsArg → option DatasetArg → bool → option nat →
          list (string * list string) * list string;
  (** the dirty-state test of a dataset *)
  is_dirty : string → bool;
  (** [os.path.isdir] *)
  isdir : string → bool;
  (** the path is a tracked file whose content is not present *)
  tracked_without_content : string → bool;
}.

(* ===================================================================== *)
(** ** Helpers imported by the module                                     *)
(* ===================================================================== *)

Module Utils.

(** Modelled from the spec: [datalad.utils.assure_list] is not part of the
    sources. The executor's contract takes a sequence of paths, and the
    docstring and the comment at the call site ("paths : path or
    list(path)", "always need to make sure that we pass a list") say what
    the helper is for: a list is passed on as it is, a single path becomes
    the list holding it, and nothing becomes the empty list. *)
Definition assure_list (paths : PathsArg) : list string :=
  match paths with
  | PNone => []
  | PStr p => [p]
  | PList ps => ps
  end.

End Utils.

Module Results.

(** Modelled from the spec: [datalad.interface.results.get_status_dict] is
    not part of the sources. It builds one StatusRecord from its keyword
    arguments: [status], [path] and [message] as given, the payload
    ([action], [logger], [refds]) copied, [type] as given or unset. *)
Definition get_status_dict (st : Status) (p : string) (ty : option string)
           (msg : string) (kwargs : Kwargs) : StatusRecord :=
  {| action := kw_action kwargs;
     path := p;
     type_ := ty;
     logger := kw_logger kwargs;
     refds := kw_refds kwargs;
     status := st;
     message := msg |}.

(** Modelled from the spec: [datalad.interface.results.results_from_paths]
    is not part of the sources. One record per path, in order, with the
    given status; the path is put into the message template ("path does not
    exist: missing.txt" for the path missing.txt). *)
Definition results_from_paths (paths : list string) (st : Status)
           (msg : string) (kwargs : Kwargs) : list StatusRecord :=
  map (fun p => get_status_dict st p None (pyformat msg [p]) kwargs) paths.

(** [p if isabs(p) else normpath(opj(ds.path, p))] *)
Definition result_path (ds_path p : string) : string :=
  if OsPath.isabs p then p else OsPath.normpath (OsPath.opj ds_path p).

(** Modelled from the spec: [datalad.interface.results.annexjson2result]
    is not part of the sources. A raw outcome of the store becomes a
    StatusRecord: the status by the fixed mapping from outcome codes, the
    path absolute and normalized, the store's note as message, the type as
    passed, the payload copied. *)
Definition annexjson2result (w : World) (res : RawOutcome) (ds_path : string)
           (ty : option string) (kwargs : Kwargs) : StatusRecord :=
  get_status_dict (status_of_code w (raw_code res))
                  (result_path ds_path (raw_file res))
                  ty (raw_note res) kwargs.

(** [any(p in ps for ps in respath_by_status.values())] *)
Definition reported (respath_by_status : gmap string (list string))
           (p : string) : bool :=
  existsb (fun kv : string * list string => bool_decide (p ∈ snd kv))
          (map_to_list respath_by_status).

(** The path [fp] lies under the directory [dir]. *)
Definition path_is_subpath (fp dir : string) : bool :=
  let prefix := if OsPath.ends_with_sep dir then dir else dir +:+ "/" in
  String.prefix prefix fp && negb (String.eqb fp prefix).

(** The paths collected under one key of [respath_by_status] that lie under
    a directory; a missing key counts as no path. *)
Definition reported_under (respath_by_status : gmap string (list string))
           (key dir : string) : list string :=
  List.filter (fun fp => path_is_subpath fp dir)
              (default [] (respath_by_status !! key)).

(** The record for one path the store was silent about; [p] is the resolved
    path. The three messages have the roles their keywords give them at the
    call site: [dir_fail_msg] is for a directory with a failure reported
    under it, [noinfo_dir_msg] for a directory the store said nothing about,
    [noinfo_file_msg] for a file the store said nothing about. A record
    without message has the empty string. *)
Definition noinfo_record (w : World) (ds_path : string)
           (respath_by_status : gmap string (list string))
           (dir_fail_msg noinfo_dir_msg noinfo_file_msg : string)
           (kwargs : Kwargs) (p : string) : StatusRecord :=
  if isdir w p then
    match reported_under respath_by_status "failure" p with
    | _ :: _ =>
        get_status_dict impossible p (Some "directory")
                        (pyformat dir_fail_msg [ds_path; p]) kwargs
    | [] =>
        match reported_under respath_by_status "success" p with
        | _ :: _ => get_status_dict ok p (Some "directory") "" kwargs
        | [] =>
            get_status_dict notneeded p (Some "directory")
                            (pyformat noinfo_dir_msg [p]) kwargs
        end
    end
  else
    get_status_dict notneeded p (Some "file") noinfo_file_msg kwargs.

(** Modelled from the spec: [datalad.interface.results.results_from_annex_noinfo]
    (the Result Reconciler) is not part of the sources. It reports on the
    requested paths the store was silent about, with distinct messages for
    the silence about a directory and about a file. A requested path that is
    in one of the lists of [respath_by_status] is skipped. A directory with
    a failure reported under it gives [impossible] with [dir_fail_msg]
    filled with the dataset and the path (the partial failure of a
    directory); a directory with only successes under it gives [ok]; a
    directory with nothing reported under it gives [notneeded] with
    [noinfo_dir_msg] filled with the path; a path that is not a directory
    gives [notneeded] with [noinfo_file_msg]. The records have the type
    [directory] or [file], and their paths are absolute and normalized. *)
Definition results_from_annex_noinfo (w : World) (ds_path : string)
           (requested_paths : list string)
           (respath_by_status : gmap string (list string))
           (dir_fail_msg noinfo_dir_msg noinfo_file_msg : string)
           (kwargs : Kwargs) : list StatusRecord :=
  flat_map (fun p =>
    let p := result_path ds_path p in
    if reported respath_by_status p then []
    else [noinfo_record w ds_path respath_by_status dir_fail_msg
                        noinfo_dir_msg noinfo_file_msg kwargs p])
    requested_paths.

End Results.

Module InterfaceUtils.

(** Modelled from the spec: [datalad.interface.utils.handle_dirty_datasets]
    (the Cleanliness Guard) is not part of the sources. Under [fail] the
    whole operation is aborted if any of the datasets is dirty; under
    [save-before] pending changes are committed and under [ignore] nothing
    is done, and the operation goes on. *)
Definition handle_dirty_datasets (w : World) (dpaths : list string)
           (mode : DirtyPolicy) (base : option DatasetArg) : Gen unit :=
  _ ← emit (EvGuard dpaths mode base);
  match mode with
  | if_dirty_fail =>
      match filter (fun d => is_dirty w d = true) dpaths with
      | d :: _ => raise (DirtyDatasetError d)
      | [] => mret tt
      end
  | if_dirty_save_before | if_dirty_ignore => mret tt
  end.

End InterfaceUtils.

(* ===================================================================== *)
(** ** The module                                                         *)
(* ===================================================================== *)

Import Utils Results InterfaceUtils.

(** [lgr = logging.getLogger('datalad.distribution.drop')] *)
Definition lgr : string := "datalad.distribution.drop".

(** [respath_by_status[success] = respath_by_status.get(success, []) + [p]] *)
Definition record_respath (respath_by_status : gmap string (list string))
           (success : string) (p : string) : gmap string (list string) :=
  <[success := (default [] (respath_by_status !! success) ++ [p])%list]>
    respath_by_status.

(** [ds.repo.drop(paths, options=opts)]: the call is an event of its own. *)
Definition call_repo_drop (w : World) (ds_path : string) (paths : list string)
           (opts : list string) : Gen (list RawOutcome) :=
  _ ← emit (EvStoreDrop ds_path paths opts);
  mret (repo_drop w ds_path paths opts).

(** [if 'action' not in kwargs: kwargs['action'] = 'drop'] *)
Definition default_action (kwargs : Kwargs) : Kwargs :=
  match kw_action kwargs with
  | None => {| kw_action := Some "drop";
               kw_logger := kw_logger kwargs;
               kw_refds := kw_refds kwargs |}
  | Some _ => kwargs
  end.

(** Helper to drop content in datasets. The dataset [ds] is given by its
    path. *)
Definition _drop_files (w : World) (ds : string) (paths : PathsArg)
           (check : bool) (noannex_iserror : bool) (kwargs : Kwargs) : Gen unit :=
  let kwargs := default_action kwargs in
  let paths := assure_list paths in
  if negb (has_drop w ds) then
    for_each paths (fun p =>
      yield (get_status_dict
               (if noannex_iserror then impossible else notneeded)
               (if OsPath.isabs p then p
                else OsPath.normpath (OsPath.opj ds p))
               None
               "no annex'ed content"
               kwargs))
  else
    let opts := if negb check then ["--force"] else [] in
    raw ← call_repo_drop w ds paths opts;
    respath_by_status ←
      for_fold raw (∅ : gmap string (list string)) (fun respath_by_status res =>
        let res := annexjson2result w res ds (Some "file") kwargs in
        let success := success_status_map w (status res) in
        let respath_by_status :=
          record_respath respath_by_status success (path res) in
        _ ← yield res;
        mret respath_by_status);
    for_each (results_from_annex_noinfo w ds paths respath_by_status
                "could not drop some content in %s %s"
                "nothing to drop from %s"
                "no annex'ed content"
                kwargs)
             yield.

(** [if dataset and not path: path = dataset.path if isinstance(dataset,
    Dataset) else dataset]: act on the whole dataset if nothing else was
    specified. *)
Definition whole_dataset_default (path : PathsArg)
           (dataset : option DatasetArg) : PathsArg :=
  if dataset_truthy dataset && negb (path_truthy path) then
    match dataset_path_or_self dataset with
    | Some p => PStr p
    | None => path
    end
  else path.

(** [res_kwargs = dict(action='drop', logger=lgr, refds=refds_path)] *)
Definition res_kwargs (dataset : option DatasetArg) : Kwargs :=
  {| kw_action := Some "drop"; kw_logger := Some lgr;
     kw_refds := dataset_path_or_self dataset |}.

Module Drop.

(** [Drop.__call__], the generator under the decorators. *)
Definition __call__ (w : World) (path : PathsArg)
           (dataset : option DatasetArg) (recursive : bool)
           (recursion_limit : option nat) (check : bool)
           (if_dirty : DirtyPolicy) : Gen unit :=
  let path := whole_dataset_default path dataset in
  let '(content_by_ds, unavailable_paths) :=
    _prep w path dataset recursive recursion_limit in
  let res_kwargs := res_kwargs dataset in
  _ ← for_each (results_from_paths unavailable_paths notneeded
                  "path does not exist: %s" res_kwargs)
               yield;
  _ ← handle_dirty_datasets w (map fst content_by_ds) if_dirty dataset;
  for_each content_by_ds (fun '(ds_path, paths) =>
    _drop_files w ds_path (PList paths) check false res_kwargs).

End Drop.

(* ===================================================================== *)
(** ** A small world to run the code in                                   *)
(* ===================================================================== *)

Module Demo.

(** What is on disk: an annex dataset [/ds], a plain Git dataset [/plain]
    and an annex dataset [/dirty] with uncommitted changes. *)
Definition on_disk : list string :=
  [ "/ds"; "/ds/a.dat"; "/ds/subdir"; "/ds/subdir/b.dat"; "/ds/empty.dat";
    "/ds/git.txt"; "/ds/docs"; "/plain"; "/plain/plain.txt"; "/dirty";
    "/dirty/f.dat" ].

Definition datasets : list string := [ "/ds"; "/plain"; "/dirty" ].

Definition lexists (p : string) : bool := bool_decide (p ∈ on_disk).

Definition inside (root p : string) : bool :=
  String.eqb root p || String.prefix (root +:+ "/") p.

(** Existing paths go to the dataset that holds them, the others are
    unavailable. *)
Definition prep (path : PathsArg) (dataset : option DatasetArg)
           (recursive : bool) (recursion_limit : option nat)
  : list (string * list string) * list string :=
  let ps := Utils.assure_list path in
  let there := List.filter lexists ps in
  (List.filter (fun g : string * list string =>
                  match snd g with [] => false | _ => true end)
               (map (fun d => (d, List.filter (inside d) there)) datasets),
   List.filter (fun p => negb (lexists p)) ps).

(** The store of [/ds]: [a.dat] can be dropped; [subdir/b.dat] has no
    other copy, so that it is only dropped when forced. *)
Definition drop (ds : string) (paths opts : list string) : list RawOutcome :=
  if String.eqb ds "/ds" then
    flat_map (fun p =>
      if String.eqb p "/ds/a.dat" then
        [ {| raw_file := "a.dat"; raw_code := "ok"; raw_note := "" |} ]
      else if String.eqb p "/ds/subdir" then
        if bool_decide ("--force" ∈ opts) then
          [ {| raw_file := "subdir/b.dat"; raw_code := "ok"; raw_note := "" |} ]
        else
          [ {| raw_file := "subdir/b.dat"; raw_code := "failed";
               raw_note := "unsafe" |} ]
      else []) paths
  else [].

Definition world : World :=
  {| has_drop := fun d => String.eqb d "/ds" || String.eqb d "/dirty";
     repo_drop := drop;
     status_of_code := fun c => if String.eqb c "ok" then ok else error;
     success_status_map := fun s =>
       match s with
       | ok | notneeded => "success"
       | impossible | error => "failure"
       end;
     _prep := prep;
     is_dirty := fun d => String.eqb d "/dirty";
     isdir := fun p =>
       bool_decide (p ∈ ["/ds"; "/ds/subdir"; "/ds/docs"; "/plain"; "/dirty"]);
     tracked_without_content := fun p => String.eqb p "/ds/empty.dat" |}.


(** A request over both kinds of dataset, with one missing path. *)
Definition request : PathsArg :=
  PList [ "/ds/a.dat"; "/ds/subdir"; "/ds/missing.txt"; "/ds/git.txt";
          "/plain/plain.txt" ].

End Demo.


(* ===================================================================== *)
(** ** Vocabulary of the statements                                       *)
(* ===================================================================== *)

(** The options [_drop_files] hands to the store. *)
Definition drop_options (check : bool) : list string :=
  if negb check then ["--force"] else [].

(** The store's reports for one call of [_drop_files], as result records. *)
Definition store_records (w : World) (ds : string) (paths : PathsArg)
           (check : bool) (kwargs : Kwargs) : list StatusRecord :=
  map (fun res => annexjson2result w res ds (Some "file") (default_action kwargs))
      (repo_drop w ds (assure_list paths) (drop_options check)).

(** [respath_by_status] after the loop over the store's reports. *)
Definition respath_after (w : World) (rs : list StatusRecord)
           (m : gmap string (list string)) : gmap string (list string) :=
  fold_left (fun m r => record_respath m (success_status_map w (status r)) (path r))
            rs m.

(** The record [_drop_files] yields for a path of a dataset without annex. *)
Definition noannex_record (ds : string) (noannex_iserror : bool)
           (kwargs : Kwargs) (p : string) : StatusRecord :=
  get_status_dict (if noannex_iserror then impossible else notneeded)
                  (result_path ds p) None "no annex'ed content"
                  (default_action kwargs).

(** The record Drop.__call__ yields for an unavailable path. *)
Definition unavailable_record (dataset : option DatasetArg) (p : string)
  : StatusRecord :=
  {| action := Some "drop"; path := p; type_ := None; logger := Some lgr;
     refds := dataset_path_or_self dataset; status := notneeded;
     message := "path does not exist: " +:+ p |}.

(** The events of the datasets' turns in Drop.__call__, one dataset after
    the other. *)
Definition per_dataset (w : World) (dataset : option DatasetArg) (check : bool)
           (groups : list (string * list string)) : list event :=
  List.concat
    (map (fun g : string * list string =>
            trace (_drop_files w (fst g) (PList (snd g)) check false
                               (res_kwargs dataset)))
         groups).


Definition occurrences (p : string) (ps : list string) : nat :=
  length (filter (fun q => q = p) ps).

(** The paths the call works on, and what the grouper makes of them. *)
Definition requested_paths (path : PathsArg) (dataset : option DatasetArg)
  : list string :=
  assure_list (whole_dataset_default path dataset).

Definition grouping (w : World) (path : PathsArg) (dataset : option DatasetArg)
           (recursive : bool) (recursion_limit : option nat)
  : list (string * list string) * list string :=
  _prep w (whole_dataset_default path dataset) dataset recursive recursion_limit.



(** The record the reconciliation yields for a path the store was silent
    about, with the messages [_drop_files] passes. *)
Definition silent_record (w : World) (ds : string)
           (respath_by_status : gmap string (list string)) (kwargs : Kwargs)
           (p : string) : StatusRecord :=
  noinfo_record w ds respath_by_status
                "could not drop some content in %s %s"
                "nothing to drop from %s"
                "no annex'ed content"
                kwargs (result_path ds p).

(* ===================================================================== *)
(** * Properties                                                          *)
(* ===================================================================== *)

(** ** Running the helpers *)

Example normpath_dotdot : OsPath.normpath "/ds/sub/../a//b/." = "/ds/a/b".
Proof. reflexivity. Qed.

Example opj_rel : OsPath.opj "/ds" "a.dat" = "/ds/a.dat".
Proof. reflexivity. Qed.

Example pyformat_two :
  pyformat "could not drop some content in %s %s" ["/ds"; "/ds/sub"]
  = "could not drop some content in /ds /ds/sub".
Proof. reflexivity. Qed.

Lemma result_path_abs ds p : OsPath.isabs p = true → result_path ds p = p.
Proof. unfold result_path. by intros ->. Qed.

(** ** Traces of loops *)

Section Traces.

Lemma trace_bind {A B} (m : Gen A) (f : A → Gen B) :
  trace (m ≫= f)
  = (trace m ++ match outcome m with
                | inr a => trace (f a)
                | inl _ => []
                end)%list.
Proof.
  destruct m as [tr [e|a]]; cbn.
  - by rewrite app_nil_r.
  - by destruct (f a).
Qed.

Lemma outcome_bind {A B} (m : Gen A) (f : A → Gen B) :
  outcome (m ≫= f)
  = match outcome m with
    | inr a => outcome (f a)
    | inl e => inl e
    end.
Proof.
  destruct m as [tr [e|a]]; cbn; [done|]. by destruct (f a).
Qed.

Lemma gen_eta {A} (g : Gen A) : g = (trace g, outcome g).
Proof. by destruct g. Qed.

(** Code that ran to its end, followed by more code. *)
Lemma bind_done {A B} (tr : list event) (a : A) (f : A → Gen B) :
  ((tr, inr a) : Gen A) ≫= f = ((tr ++ trace (f a))%list, outcome (f a)).
Proof. cbn. by destruct (f a). Qed.

(** Code that raised: what follows is not run. *)
Lemma bind_raised {A B} (tr : list event) (e : exn) (f : A → Gen B) :
  ((tr, inl e) : Gen A) ≫= f = (tr, inl e).
Proof. reflexivity. Qed.

(** A loop whose body only yields one record per element. *)
Lemma for_each_yield {A} (f : A → StatusRecord) (xs : list A) :
  for_each xs (fun x => yield (f x)) = (map (fun x => EvYield (f x)) xs, inr tt).
Proof.
  induction xs as [|x xs IH]; [done|].
  cbn [for_each]. rewrite IH. reflexivity.
Qed.

(** A loop whose body never raises runs every iteration. *)
Lemma for_each_total {A} (body : A → Gen unit) (xs : list A) :
  (∀ x, x ∈ xs → outcome (body x) = inr tt) →
  for_each xs body = (concat (map (fun x => trace (body x)) xs), inr tt).
Proof.
  induction xs as [|x xs IH]; intros Hok; [done|].
  cbn [for_each map concat].
  rewrite (gen_eta (body x)), Hok by apply list_elem_of_here.
  rewrite IH by (intros y Hy; apply Hok; by apply list_elem_of_further).
  reflexivity.
Qed.

Lemma yields_app tr1 tr2 : yields (tr1 ++ tr2) = (yields tr1 ++ yields tr2)%list.
Proof. apply omap_app. Qed.

Lemma store_calls_app tr1 tr2 :
  store_calls (tr1 ++ tr2) = (store_calls tr1 ++ store_calls tr2)%list.
Proof. apply omap_app. Qed.

Lemma guard_calls_app tr1 tr2 :
  guard_calls (tr1 ++ tr2) = (guard_calls tr1 ++ guard_calls tr2)%list.
Proof. apply omap_app. Qed.

Lemma yields_map_yield {A} (f : A → StatusRecord) (xs : list A) :
  yields (map (fun x => EvYield (f x)) xs) = map f xs.
Proof. induction xs as [|x xs IH]; [done|]. cbn. by f_equal. Qed.

Lemma store_calls_map_yield {A} (f : A → StatusRecord) (xs : list A) :
  store_calls (map (fun x => EvYield (f x)) xs) = [].
Proof. by induction xs. Qed.

Lemma guard_calls_map_yield {A} (f : A → StatusRecord) (xs : list A) :
  guard_calls (map (fun x => EvYield (f x)) xs) = [].
Proof. by induction xs. Qed.

End Traces.

(** ** What [_drop_files] does *)

Section DropFiles.

Context (w : World).

Lemma for_fold_store (raw : list RawOutcome) (ds : string) (kwargs : Kwargs)
      (m : gmap string (list string)) :
  let tr := fun res => annexjson2result w res ds (Some "file") kwargs in
  for_fold raw m (fun respath_by_status res =>
      let res := tr res in
      let success := success_status_map w (status res) in
      let respath_by_status :=
        record_respath respath_by_status success (path res) in
      _ ← yield res;
      mret respath_by_status)
  = (map (fun r => EvYield r) (map tr raw), inr (respath_after w (map tr raw) m)).
Proof.
  intros tr. revert m.
  induction raw as [|res raw IH]; intros m; [done|].
  cbn [for_fold map]. cbn -[for_fold record_respath].
  rewrite IH. reflexivity.
Qed.

Lemma call_repo_drop_eq ds paths opts :
  call_repo_drop w ds paths opts
  = ([EvStoreDrop ds paths opts], inr (repo_drop w ds paths opts)).
Proof. reflexivity. Qed.

(** A dataset without annex: one record per path, nothing else. *)
Lemma drop_files_noannex ds paths check noannex_iserror kwargs :
  has_drop w ds = false →
  _drop_files w ds paths check noannex_iserror kwargs
  = (map (fun p => EvYield (noannex_record ds noannex_iserror kwargs p))
         (assure_list paths),
     inr tt).
Proof.
  intros Hno. unfold _drop_files. rewrite Hno. cbn [negb].
  apply (for_each_yield (noannex_record ds noannex_iserror kwargs)).
Qed.

(** A dataset with annex: the call of the store, its reports, and then the
    records for what the store was silent about. *)
Lemma drop_files_annex ds paths check noannex_iserror kwargs :
  has_drop w ds = true →
  _drop_files w ds paths check noannex_iserror kwargs
  = (EvStoreDrop ds (assure_list paths) (drop_options check)
       :: map (fun r => EvYield r) (store_records w ds paths check kwargs)
       ++ map (fun r => EvYield r)
            (results_from_annex_noinfo w ds (assure_list paths)
               (respath_after w (store_records w ds paths check kwargs) ∅)
               "could not drop some content in %s %s"
               "nothing to drop from %s"
               "no annex'ed content"
               (default_action kwargs)),
     inr tt)%list.
Proof.
  intros Hyes. unfold _drop_files. rewrite Hyes. cbn [negb].
  fold (drop_options check).
  rewrite call_repo_drop_eq, bind_done.
  rewrite for_fold_store, bind_done.
  rewrite (for_each_yield (fun r => r)).
  reflexivity.
Qed.

Lemma drop_files_annex_yields ds paths check noannex_iserror kwargs :
  has_drop w ds = true →
  yields (trace (_drop_files w ds paths check noannex_iserror kwargs))
  = (store_records w ds paths check kwargs
     ++ results_from_annex_noinfo w ds (assure_list paths)
          (respath_after w (store_records w ds paths check kwargs) ∅)
          "could not drop some content in %s %s"
          "nothing to drop from %s"
          "no annex'ed content"
          (default_action kwargs))%list.
Proof.
  intros Hd. rewrite drop_files_annex by done. cbn [trace fst].
  change (?ev :: ?l1 ++ ?l2)%list with ([ev] ++ (l1 ++ l2))%list.
  rewrite !yields_app, !(yields_map_yield (fun r => r)), !map_id.
  reflexivity.
Qed.

(** [_drop_files] never raises and never calls the guard. *)
Lemma drop_files_outcome ds paths check noannex_iserror kwargs :
  outcome (_drop_files w ds paths check noannex_iserror kwargs) = inr tt.
Proof.
  destruct (has_drop w ds) eqn:Hd.
  - by rewrite drop_files_annex.
  - by rewrite drop_files_noannex.
Qed.

Lemma drop_files_guard_calls ds paths check noannex_iserror kwargs :
  guard_calls (trace (_drop_files w ds paths check noannex_iserror kwargs)) = [].
Proof.
  destruct (has_drop w ds) eqn:Hd.
  - rewrite drop_files_annex by done. cbn [trace fst].
    change (?ev :: ?l1 ++ ?l2)%list with (([ev] ++ l1) ++ l2)%list.
    rewrite !guard_calls_app.
    by rewrite !(guard_calls_map_yield (fun r => r)).
  - rewrite drop_files_noannex by done. apply guard_calls_map_yield.
Qed.

End DropFiles.

(** ** The drop executor *)

(** C2: for a dataset whose repository has [drop], [_drop_files] calls the
    store exactly once, on the paths it was given; with [check] true the
    options of that call are empty (no forcing option), with [check] false
    they are exactly [--force]; so the forcing option is passed if and only
    if [check] is false. *)
Theorem drop_files_force_option (w : World) (ds : string) (paths : PathsArg)
        (check noannex_iserror : bool) (kwargs : Kwargs) :
  has_drop w ds = true →
  ∃ opts,
    store_calls (trace (_drop_files w ds paths check noannex_iserror kwargs))
    = [(ds, assure_list paths, opts)]
    ∧ (check = true → opts = [])
    ∧ (check = false → opts = ["--force"])
    ∧ ("--force" ∈ opts ↔ check = false).
Proof.
  intros Hd. exists (drop_options check).
  rewrite drop_files_annex by done. cbn [trace fst].
  change (?ev :: ?l1 ++ ?l2)%list with (([ev] ++ l1) ++ l2)%list.
  rewrite !store_calls_app, !(store_calls_map_yield (fun r => r)).
  split; [reflexivity|].
  destruct check; cbn; repeat split; try done.
  - intros Hin. by apply elem_of_nil in Hin.
  - intros _. apply list_elem_of_here.
Qed.

Lemma drop_files_force_option_witness :
  has_drop Demo.world "/ds" = true
  ∧ ∃ opts,
      store_calls (trace (_drop_files Demo.world "/ds" (PList ["/ds/subdir"])
                                      false false (res_kwargs None)))
      = [("/ds", ["/ds/subdir"], opts)]
      ∧ (false = true → opts = [])
      ∧ (false = false → opts = ["--force"])
      ∧ ("--force" ∈ opts ↔ false = false).
Proof.
  split; [reflexivity|].
  apply (drop_files_force_option Demo.world "/ds" (PList ["/ds/subdir"])
                                 false false (res_kwargs None)).
  reflexivity.
Defined.

(** C3: for a dataset whose repository has no [drop], [_drop_files] yields
    exactly one record per requested path, in order, with status
    [impossible] when [noannex_iserror] is set and [notneeded] otherwise; it
    makes no call of the store and ends normally. *)
Theorem drop_files_without_store (w : World) (ds : string) (paths : PathsArg)
        (check noannex_iserror : bool) (kwargs : Kwargs) :
  has_drop w ds = false →
  let g := _drop_files w ds paths check noannex_iserror kwargs in
  store_calls (trace g) = []
  ∧ map (fun r => (path r, status r)) (yields (trace g))
    = map (fun p => (result_path ds p,
                     if noannex_iserror then impossible else notneeded))
          (assure_list paths)
  ∧ length (yields (trace g)) = length (assure_list paths)
  ∧ outcome g = inr tt.
Proof.
  intros Hd g. subst g. rewrite drop_files_noannex by done.
  cbn [trace outcome fst snd].
  rewrite store_calls_map_yield, yields_map_yield, map_map, length_map.
  done.
Qed.

Lemma drop_files_without_store_witness :
  has_drop Demo.world "/plain" = false
  ∧ let g := _drop_files Demo.world "/plain" (PList ["plain.txt"; "/plain/x"])
                         true true (res_kwargs None) in
    store_calls (trace g) = []
    ∧ map (fun r => (path r, status r)) (yields (trace g))
      = map (fun p => (result_path "/plain" p,
                       if true then impossible else notneeded))
            (assure_list (PList ["plain.txt"; "/plain/x"]))
    ∧ length (yields (trace g))
      = length (assure_list (PList ["plain.txt"; "/plain/x"]))
    ∧ outcome g = inr tt.
Proof.
  split; [reflexivity|].
  apply (drop_files_without_store Demo.world "/plain"
           (PList ["plain.txt"; "/plain/x"]) true true (res_kwargs None)).
  reflexivity.
Defined.

(** C7, as stated, fails: the record for [plain.txt] in the plain Git
    dataset [/plain] does not carry the message "no content store for this
    path". *)
Lemma no_content_store_message_counterexample :
  has_drop Demo.world "/plain" = false
  ∧ yields (trace (_drop_files Demo.world "/plain" (PList ["plain.txt"])
                               true false (res_kwargs None)))
    = [ {| action := Some "drop"; path := "/plain/plain.txt"; type_ := None;
           logger := Some lgr; refds := None; status := notneeded;
           message := "no annex'ed content" |} ]
  ∧ ¬ Forall (fun r => message r = "no content store for this path")
        (yields (trace (_drop_files Demo.world "/plain" (PList ["plain.txt"])
                                    true false (res_kwargs None)))).
Proof.
  split; [reflexivity|]. split; [reflexivity|].
  intros HF. apply Forall_cons in HF as [Hm _]. discriminate Hm.
Qed.

(** C7, amended: for a dataset whose repository has no [drop], every record
    [_drop_files] yields carries the message "no annex'ed content". *)
Theorem drop_files_without_store_message (w : World) (ds : string)
        (paths : PathsArg) (check noannex_iserror : bool) (kwargs : Kwargs) :
  has_drop w ds = false →
  Forall (fun r => message r = "no annex'ed content")
         (yields (trace (_drop_files w ds paths check noannex_iserror kwargs))).
Proof.
  intros Hd. rewrite drop_files_noannex by done. cbn [trace fst].
  rewrite yields_map_yield. apply Forall_map, Forall_true. done.
Qed.

Lemma drop_files_without_store_message_witness :
  has_drop Demo.world "/plain" = false
  ∧ Forall (fun r => message r = "no annex'ed content")
      (yields (trace (_drop_files Demo.world "/plain" (PStr "plain.txt")
                                  true true (res_kwargs None)))).
Proof.
  split; [reflexivity|].
  apply (drop_files_without_store_message Demo.world "/plain"
           (PStr "plain.txt") true true (res_kwargs None)).
  reflexivity.
Defined.

(** C10: a single path, not wrapped in a list, gives exactly what the list
    holding that one path gives: the same events in the same order and the
    same end. *)
Theorem drop_files_single_path (w : World) (ds p : string)
        (check noannex_iserror : bool) (kwargs : Kwargs) :
  _drop_files w ds (PStr p) check noannex_iserror kwargs
  = _drop_files w ds (PList [p]) check noannex_iserror kwargs.
Proof.
  unfold _drop_files.
  change (assure_list (PStr p)) with [p].
  change (assure_list (PList [p])) with [p].
  reflexivity.
Qed.

(** ** What [Drop.__call__] does *)

Section Call.

Context (w : World).

Lemma append_empty_r (s : string) : s +:+ "" = s.
Proof.
  induction s as [|c s IH]; [done|].
  change (String c (s +:+ "") = String c s). by rewrite IH.
Qed.

Lemma results_from_paths_unavailable dataset (unavailable : list string) :
  results_from_paths unavailable notneeded "path does not exist: %s"
                     (res_kwargs dataset)
  = map (unavailable_record dataset) unavailable.
Proof.
  unfold results_from_paths. apply map_ext. intros p.
  unfold get_status_dict, unavailable_record. cbn.
  by rewrite append_empty_r.
Qed.

Lemma guard_trace dpaths mode base :
  trace (handle_dirty_datasets w dpaths mode base) = [EvGuard dpaths mode base].
Proof.
  unfold handle_dirty_datasets, emit. rewrite bind_done.
  destruct mode; try reflexivity.
  by destruct (filter _ dpaths).
Qed.

Lemma guard_outcome_dirty dpaths base :
  (∃ d, d ∈ dpaths ∧ is_dirty w d = true) →
  ∃ d, d ∈ dpaths ∧ is_dirty w d = true
       ∧ outcome (handle_dirty_datasets w dpaths if_dirty_fail base)
         = inl (DirtyDatasetError d).
Proof.
  intros (d & Hin & Hd).
  unfold handle_dirty_datasets, emit. rewrite bind_done. cbn [outcome snd].
  destruct (filter (λ d, is_dirty w d = true) dpaths) as [|d' l] eqn:Hf.
  - assert (d ∈ filter (λ d, is_dirty w d = true) dpaths) as Hd'
        by (by apply list_elem_of_filter).
    rewrite Hf in Hd'. by apply elem_of_nil in Hd'.
  - assert (d' ∈ filter (λ d, is_dirty w d = true) dpaths) as Hd'
        by (rewrite Hf; apply list_elem_of_here).
    apply list_elem_of_filter in Hd' as [Hd1 Hd2].
    exists d'. done.
Qed.

Lemma guard_outcome dpaths mode base :
  outcome (handle_dirty_datasets w dpaths mode base) = inr tt
  ∨ (mode = if_dirty_fail
     ∧ ∃ d, outcome (handle_dirty_datasets w dpaths mode base)
            = inl (DirtyDatasetError d)).
Proof.
  unfold handle_dirty_datasets, emit. rewrite bind_done. cbn [outcome snd].
  destruct mode; try (by left).
  destruct (filter _ dpaths) as [|d l]; [by left|].
  right. split; [done|]. by exists d.
Qed.

Lemma per_dataset_loop dataset check groups :
  for_each groups (fun '(ds_path, paths) =>
    _drop_files w ds_path (PList paths) check false (res_kwargs dataset))
  = (per_dataset w dataset check groups, inr tt).
Proof.
  rewrite for_each_total.
  - unfold per_dataset. do 2 f_equal. apply map_ext. by intros [d ps].
  - intros [d ps] _. apply drop_files_outcome.
Qed.

(** The shape of a call: the records of the unavailable paths, the guard,
    and, unless the guard raised, the datasets one after the other. *)
Lemma call_shape path dataset recursive recursion_limit check if_dirty :
  let groups := fst (grouping w path dataset recursive recursion_limit) in
  let unavailable := snd (grouping w path dataset recursive recursion_limit) in
  let guard := handle_dirty_datasets w (map fst groups) if_dirty dataset in
  Drop.__call__ w path dataset recursive recursion_limit check if_dirty
  = ((map (fun p => EvYield (unavailable_record dataset p)) unavailable
      ++ EvGuard (map fst groups) if_dirty dataset
      :: match outcome guard with
         | inr _ => per_dataset w dataset check groups
         | inl _ => []
         end)%list,
     match outcome guard with
     | inr _ => inr tt
     | inl e => inl e
     end).
Proof.
  intros groups unavailable guard.
  unfold Drop.__call__.
  fold (grouping w path dataset recursive recursion_limit).
  rewrite (surjective_pairing (grouping w path dataset recursive recursion_limit)).
  fold groups unavailable.
  rewrite results_from_paths_unavailable.
  rewrite (for_each_yield (fun r => r)), map_map, bind_done.
  fold guard.
  rewrite (gen_eta guard). unfold guard at 1. rewrite guard_trace.
  cbn [outcome snd].
  destruct (outcome guard) as [e|[]].
  - rewrite bind_raised. reflexivity.
  - rewrite bind_done, per_dataset_loop. reflexivity.
Qed.

End Call.

Section PerDataset.

Context (w : World) (dataset : option DatasetArg) (check : bool).

Lemma per_dataset_cons g groups :
  per_dataset w dataset check (g :: groups)
  = (trace (_drop_files w (fst g) (PList (snd g)) check false
                        (res_kwargs dataset))
     ++ per_dataset w dataset check groups)%list.
Proof. reflexivity. Qed.

Lemma per_dataset_guard_calls groups :
  guard_calls (per_dataset w dataset check groups) = [].
Proof.
  induction groups as [|g groups IH]; [done|].
  by rewrite per_dataset_cons, guard_calls_app, drop_files_guard_calls, IH.
Qed.

(** Every event of the datasets' turns is an event of [_drop_files] on one
    of the groups, called without [noannex_iserror]. *)
Lemma per_dataset_elem ev groups :
  ev ∈ per_dataset w dataset check groups →
  ∃ ds paths, (ds, paths) ∈ groups
    ∧ ev ∈ trace (_drop_files w ds (PList paths) check false
                              (res_kwargs dataset)).
Proof.
  induction groups as [|[d ps] groups IH].
  - intros H. by apply elem_of_nil in H.
  - rewrite per_dataset_cons. intros [H|H]%elem_of_app.
    + exists d, ps. split; [apply list_elem_of_here | exact H].
    + destruct (IH H) as (d' & ps' & Hin & Hev).
      exists d', ps'. split; [by apply list_elem_of_further | exact Hev].
Qed.

Lemma per_dataset_incl ev ds paths groups :
  (ds, paths) ∈ groups →
  ev ∈ trace (_drop_files w ds (PList paths) check false (res_kwargs dataset)) →
  ev ∈ per_dataset w dataset check groups.
Proof.
  induction groups as [|g groups IH]; intros Hin Hev.
  - by apply elem_of_nil in Hin.
  - rewrite per_dataset_cons. apply elem_of_app.
    apply elem_of_cons in Hin as [<-|Hin]; [by left | right; by apply IH].
Qed.

Lemma elem_of_yields r tr : r ∈ yields tr ↔ EvYield r ∈ tr.
Proof.
  unfold yields. rewrite list_elem_of_omap. split.
  - intros (ev & Hin & Hev). destruct ev; simplify_eq/=. exact Hin.
  - intros Hin. by exists (EvYield r).
Qed.

End PerDataset.

(** ** The public operation *)

(** C5: [Drop.__call__] first yields one record for every unavailable path,
    in order, with status [notneeded] and the message "path does not exist: "
    followed by the path; only then the cleanliness guard is called; and
    everything after the guard is done by [_drop_files] for one of the
    datasets. *)
Theorem call_unavailable_first (w : World) (path_arg : PathsArg)
        (dataset : option DatasetArg) (recursive : bool)
        (recursion_limit : option nat) (check : bool) (if_dirty : DirtyPolicy) :
  let groups := fst (grouping w path_arg dataset recursive recursion_limit) in
  let unavailable := snd (grouping w path_arg dataset recursive recursion_limit) in
  ∃ recs rest,
    trace (Drop.__call__ w path_arg dataset recursive recursion_limit check if_dirty)
    = (map (fun r => EvYield r) recs
       ++ EvGuard (map fst groups) if_dirty dataset :: rest)%list
    ∧ map (fun r => (path r, status r, message r)) recs
      = map (fun p => (p, notneeded, "path does not exist: " +:+ p)) unavailable
    ∧ guard_calls rest = []
    ∧ ∀ ev, ev ∈ rest →
        ∃ ds paths, (ds, paths) ∈ groups
          ∧ ev ∈ trace (_drop_files w ds (PList paths) check false
                                    (res_kwargs dataset)).
Proof.
  intros groups unavailable.
  rewrite call_shape. fold groups unavailable. cbn [trace fst].
  exists (map (unavailable_record dataset) unavailable).
  eexists. split; [by rewrite map_map|].
  split; [by rewrite map_map|].
  destruct (outcome _).
  - split; [done|]. intros ev H. by apply elem_of_nil in H.
  - split; [apply per_dataset_guard_calls|].
    intros ev Hev. by apply per_dataset_elem.
Qed.

(** Scenario A: a request for one missing path. *)
Example call_missing_path :
  Drop.__call__ Demo.world (PList ["/ds/missing.txt"]) None false None true
                if_dirty_save_before
  = ([ EvYield {| action := Some "drop"; path := "/ds/missing.txt";
                  type_ := None; logger := Some lgr; refds := None;
                  status := notneeded;
                  message := "path does not exist: /ds/missing.txt" |};
       EvGuard [] if_dirty_save_before None ],
     inr tt).
Proof. reflexivity. Qed.

(** C4: the cleanliness guard is called exactly once per call, on the keys
    of [content_by_ds]. Under the [fail] policy, if one of these datasets is
    dirty, the call ends with the guard's exception, naming a dirty dataset;
    the store is never called, and the only records yielded are those of
    the unavailable paths. *)
Theorem call_guard_once_and_abort (w : World) (path_arg : PathsArg)
        (dataset : option DatasetArg) (recursive : bool)
        (recursion_limit : option nat) (check : bool) (if_dirty : DirtyPolicy) :
  let g := Drop.__call__ w path_arg dataset recursive recursion_limit check
                         if_dirty in
  let groups := fst (grouping w path_arg dataset recursive recursion_limit) in
  let unavailable := snd (grouping w path_arg dataset recursive recursion_limit) in
  guard_calls (trace g) = [(map fst groups, if_dirty)]
  ∧ (if_dirty = if_dirty_fail →
     (∃ d, d ∈ map fst groups ∧ is_dirty w d = true) →
     (∃ d, d ∈ map fst groups ∧ is_dirty w d = true
           ∧ outcome g = inl (DirtyDatasetError d))
     ∧ store_calls (trace g) = []
     ∧ yields (trace g) = map (unavailable_record dataset) unavailable).
Proof.
  intros g groups unavailable. subst g.
  rewrite call_shape. fold groups unavailable. cbn [trace outcome fst snd].
  split.
  - rewrite guard_calls_app, guard_calls_map_yield. cbn.
    destruct (outcome _); [done|]. by rewrite per_dataset_guard_calls.
  - intros -> Hdirty.
    destruct (guard_outcome_dirty w (map fst groups) dataset Hdirty)
      as (d & Hin & Hd & Hout).
    rewrite Hout. split; [by exists d|].
    rewrite store_calls_app, yields_app, store_calls_map_yield, yields_map_yield.
    cbn. by rewrite app_nil_r.
Qed.

Lemma call_guard_once_and_abort_witness :
  let w := Demo.world in
  let g := Drop.__call__ w (PList ["/ds/a.dat"; "/dirty/f.dat"; "/nowhere"])
                         None false None true if_dirty_fail in
  let groups := fst (grouping w (PList ["/ds/a.dat"; "/dirty/f.dat"; "/nowhere"])
                              None false None) in
  let unavailable := snd (grouping w (PList ["/ds/a.dat"; "/dirty/f.dat"; "/nowhere"])
                                   None false None) in
  (if_dirty_fail = if_dirty_fail
   ∧ ∃ d, d ∈ map fst groups ∧ is_dirty w d = true)
  ∧ guard_calls (trace g) = [(map fst groups, if_dirty_fail)]
  ∧ (∃ d, d ∈ map fst groups ∧ is_dirty w d = true
          ∧ outcome g = inl (DirtyDatasetError d))
  ∧ store_calls (trace g) = []
  ∧ yields (trace g) = map (unavailable_record None) unavailable.
Proof.
  intros w g groups unavailable.
  assert (∃ d, d ∈ map fst groups ∧ is_dirty w d = true) as Hdirty.
  { exists "/dirty". split; [|reflexivity].
    vm_compute. apply list_elem_of_further, list_elem_of_here. }
  split; [by split|].
  destruct (call_guard_once_and_abort w
              (PList ["/ds/a.dat"; "/dirty/f.dat"; "/nowhere"])
              None false None true if_dirty_fail) as [Honce Habort].
  split; [exact Honce|].
  exact (Habort eq_refl Hdirty).
Defined.

(** C8: when a dataset is given and no path is, the call is the call with
    the dataset's own path as the one requested path. *)
Theorem call_whole_dataset (w : World) (path_arg : PathsArg)
        (dataset : option DatasetArg) (recursive : bool)
        (recursion_limit : option nat) (check : bool) (if_dirty : DirtyPolicy) :
  dataset_truthy dataset = true →
  path_truthy path_arg = false →
  ∃ root,
    dataset_path_or_self dataset = Some root
    ∧ requested_paths path_arg dataset = [root]
    ∧ Drop.__call__ w path_arg dataset recursive recursion_limit check if_dirty
      = Drop.__call__ w (PStr root) dataset recursive recursion_limit check
                      if_dirty.
Proof.
  intros Hds Hpath.
  assert (∃ root, dataset_path_or_self dataset = Some root) as [root Hroot].
  { destruct dataset as [[p|s]|]; [by exists p | by exists s | discriminate]. }
  exists root.
  assert (whole_dataset_default path_arg dataset = PStr root) as Hdef.
  { unfold whole_dataset_default. by rewrite Hds, Hpath, Hroot. }
  assert (whole_dataset_default (PStr root) dataset = PStr root) as Hidem.
  { unfold whole_dataset_default. rewrite Hds, Hroot. by destruct (negb _). }
  split; [done|]. split.
  - unfold requested_paths. by rewrite Hdef.
  - unfold Drop.__call__. by rewrite Hdef, Hidem.
Qed.

Lemma call_whole_dataset_witness :
  (dataset_truthy (Some (DsObj "/plain")) = true
   ∧ path_truthy (PList []) = false)
  ∧ ∃ root,
      dataset_path_or_self (Some (DsObj "/plain")) = Some root
      ∧ requested_paths (PList []) (Some (DsObj "/plain")) = [root]
      ∧ Drop.__call__ Demo.world (PList []) (Some (DsObj "/plain")) false None
                      true if_dirty_save_before
        = Drop.__call__ Demo.world (PStr root) (Some (DsObj "/plain")) false
                        None true if_dirty_save_before.
Proof.
  split; [by split|].
  apply (call_whole_dataset Demo.world (PList []) (Some (DsObj "/plain"))
                            false None true if_dirty_save_before);
    reflexivity.
Defined.

(** The whole dataset [/plain], which has no annex: one [notneeded] record
    for its root. *)
Example call_whole_plain_dataset :
  yields (trace (Drop.__call__ Demo.world PNone (Some (DsObj "/plain")) false
                               None true if_dirty_save_before))
  = [ {| action := Some "drop"; path := "/plain"; type_ := None;
         logger := Some lgr; refds := Some "/plain"; status := notneeded;
         message := "no annex'ed content" |} ].
Proof. reflexivity. Qed.

(** C9: [Drop.__call__] runs [_drop_files] with [noannex_iserror] false for
    every dataset. So a record of status [impossible] in its output was
    yielded by [_drop_files] on a dataset whose repository has [drop]; and
    when the call runs to its end, every path of a dataset without [drop]
    has its record of status [notneeded] in the output. *)
Theorem call_never_strict (w : World) (path_arg : PathsArg)
        (dataset : option DatasetArg) (recursive : bool)
        (recursion_limit : option nat) (check : bool) (if_dirty : DirtyPolicy) :
  let g := Drop.__call__ w path_arg dataset recursive recursion_limit check
                         if_dirty in
  let groups := fst (grouping w path_arg dataset recursive recursion_limit) in
  (∀ r, r ∈ yields (trace g) → status r = impossible →
        ∃ ds paths, (ds, paths) ∈ groups ∧ has_drop w ds = true
          ∧ r ∈ yields (trace (_drop_files w ds (PList paths) check false
                                           (res_kwargs dataset))))
  ∧ (outcome g = inr tt →
     ∀ ds paths p, (ds, paths) ∈ groups → has_drop w ds = false → p ∈ paths →
       ∃ r, r ∈ yields (trace g)
            ∧ path r = result_path ds p ∧ status r = notneeded).
Proof.
  intros g groups. subst g. rewrite call_shape. fold groups.
  cbn [trace outcome fst snd]. split.
  - intros r Hr Himp. rewrite yields_app, yields_map_yield in Hr.
    apply elem_of_app in Hr as [Hr|Hr].
    { apply list_elem_of_fmap in Hr as (p & -> & _). discriminate Himp. }
    cbn in Hr. destruct (outcome _); [by apply elem_of_nil in Hr|].
    apply elem_of_yields, per_dataset_elem in Hr as (ds & paths & Hin & Hev).
    exists ds, paths. split; [done|].
    destruct (has_drop w ds) eqn:Hd.
    + split; [done|]. by apply elem_of_yields.
    + rewrite drop_files_noannex in Hev by done. cbn [trace fst] in Hev.
      apply list_elem_of_fmap in Hev as (p & Heq & _).
      inversion Heq; subst. discriminate Himp.
  - destruct (outcome _) as [e|[]]; [discriminate|]. intros _.
    intros ds paths p Hin Hd Hp.
    exists (noannex_record ds false (res_kwargs dataset) p).
    split; [|done].
    rewrite yields_app. apply elem_of_app. right. cbn.
    apply elem_of_yields, (per_dataset_incl _ _ _ _ ds paths); [done|].
    rewrite drop_files_noannex by done. cbn [trace fst assure_list].
    apply list_elem_of_fmap. by exists p.
Qed.

Lemma call_never_strict_witness :
  (outcome (Drop.__call__ Demo.world (PList ["/plain/plain.txt"; "/ds/subdir"])
                          None false None true if_dirty_fail) = inr tt
   ∧ ("/plain", ["/plain/plain.txt"])
       ∈ fst (grouping Demo.world (PList ["/plain/plain.txt"; "/ds/subdir"])
                       None false None)
   ∧ has_drop Demo.world "/plain" = false
   ∧ "/plain/plain.txt" ∈ ["/plain/plain.txt"])
  ∧ ∃ r, r ∈ yields (trace (Drop.__call__ Demo.world
                              (PList ["/plain/plain.txt"; "/ds/subdir"])
                              None false None true if_dirty_fail))
         ∧ path r = result_path "/plain" "/plain/plain.txt"
         ∧ status r = notneeded.
Proof.
  assert (("/plain", ["/plain/plain.txt"])
            ∈ fst (grouping Demo.world
                            (PList ["/plain/plain.txt"; "/ds/subdir"])
                            None false None)) as Hin.
  { vm_compute. apply list_elem_of_further, list_elem_of_here. }
  split.
  { split; [reflexivity|]. split; [exact Hin|].
    split; [reflexivity | apply list_elem_of_here]. }
  destruct (call_never_strict Demo.world
              (PList ["/plain/plain.txt"; "/ds/subdir"])
              None false None true if_dirty_fail) as [_ Hlenient].
  apply (Hlenient eq_refl "/plain" ["/plain/plain.txt"] "/plain/plain.txt");
    [exact Hin | reflexivity | apply list_elem_of_here].
Defined.

(** ** Reconciliation with what the store reported *)

Section Reconcile.

Context (w : World).

Lemma reported_spec (m : gmap string (list string)) (p : string) :
  reported m p = true ↔ ∃ k ps, m !! k = Some ps ∧ p ∈ ps.
Proof.
  unfold reported. rewrite existsb_exists. split.
  - intros ([k ps] & Hin & Hp).
    apply list_elem_of_In, elem_of_map_to_list in Hin.
    apply bool_decide_eq_true in Hp. by exists k, ps.
  - intros (k & ps & Hk & Hp). exists (k, ps). split.
    + by apply list_elem_of_In, elem_of_map_to_list.
    + by apply bool_decide_eq_true.
Qed.

Lemma reported_empty (p : string) : reported ∅ p = false.
Proof.
  apply not_true_iff_false. rewrite reported_spec.
  intros (k & ps & Hk & _). by rewrite lookup_empty in Hk.
Qed.

(** One more report: the path is now reported, and nothing is lost. *)
Lemma reported_record (m : gmap string (list string)) (s q p : string) :
  reported (record_respath m s q) p = true ↔ reported m p = true ∨ p = q.
Proof.
  rewrite !reported_spec. unfold record_respath. split.
  - intros (k & ps & Hk & Hp).
    destruct (decide (s = k)) as [->|Hne].
    + rewrite lookup_insert_eq in Hk. injection Hk as <-.
      apply elem_of_app in Hp as [Hp|Hp].
      * left. destruct (m !! k) as [l|] eqn:Hl; cbn in Hp.
        -- by exists k, l.
        -- by apply elem_of_nil in Hp.
      * right. by apply list_elem_of_singleton in Hp.
    + rewrite lookup_insert_ne in Hk by done. left. by exists k, ps.
  - intros [(k & ps & Hk & Hp)| ->].
    + destruct (decide (s = k)) as [->|Hne].
      * exists k, (ps ++ [q])%list. rewrite lookup_insert_eq, Hk. cbn.
        split; [done|]. apply elem_of_app. by left.
      * exists k, ps. by rewrite lookup_insert_ne.
    + exists s, (default [] (m !! s) ++ [q])%list.
      rewrite lookup_insert_eq. split; [done|].
      apply elem_of_app. right. apply list_elem_of_here.
Qed.

(** After the loop, a path is in one of the lists of [respath_by_status]
    exactly if the store reported on it. *)
Lemma reported_after (rs : list StatusRecord) (m : gmap string (list string))
      (p : string) :
  reported (respath_after w rs m) p = true
  ↔ reported m p = true ∨ p ∈ map path rs.
Proof.
  revert m. induction rs as [|r rs IH]; intros m; cbn.
  - split; [by left|]. intros [H|H]; [done|]. by apply elem_of_nil in H.
  - unfold respath_after in *. cbn. rewrite IH, reported_record.
    rewrite elem_of_cons. tauto.
Qed.

Lemma reported_after_empty (rs : list StatusRecord) (p : string) :
  reported (respath_after w rs ∅) p = true ↔ p ∈ map path rs.
Proof.
  rewrite reported_after, reported_empty. split; [|by right].
  by intros [?|?].
Qed.

Lemma respath_after_cons r rs (m : gmap string (list string)) :
  respath_after w (r :: rs) m
  = respath_after w rs
      (record_respath m (success_status_map w (status r)) (path r)).
Proof. reflexivity. Qed.

Lemma respath_after_lookup_from rs (m : gmap string (list string)) (k : string) :
  respath_after w rs m !! k
  = match map path (filter (fun r => success_status_map w (status r) = k) rs) with
    | [] => m !! k
    | ps => Some (default [] (m !! k) ++ ps)%list
    end.
Proof.
  revert m. induction rs as [|r rs IH]; intros m; [done|].
  rewrite respath_after_cons, IH, filter_cons. unfold record_respath.
  case_decide as Hk.
  - rewrite Hk, lookup_insert_eq. cbn [map default].
    destruct (map path _) as [|q ps]; [done|].
    unfold id. by rewrite <- app_assoc.
  - by rewrite lookup_insert_ne.
Qed.




(** The reconciliation with the messages [_drop_files] passes. *)
Lemma noinfo_records ds paths (m : gmap string (list string)) kwargs :
  results_from_annex_noinfo w ds paths m
    "could not drop some content in %s %s" "nothing to drop from %s"
    "no annex'ed content" kwargs
  = flat_map (fun p => if reported m (result_path ds p) then []
                       else [silent_record w ds m kwargs p])
             paths.
Proof. reflexivity. Qed.

Lemma silent_record_path ds (m : gmap string (list string)) kwargs p :
  path (silent_record w ds m kwargs p) = result_path ds p.
Proof.
  unfold silent_record, noinfo_record.
  destruct (isdir w _); [|done].
  destruct (reported_under m "failure" _); [|done].
  by destruct (reported_under m "success" _).
Qed.




Lemma elem_of_noinfo r ds paths (m : gmap string (list string)) kwargs :
  r ∈ flat_map (fun p => if reported m (result_path ds p) then []
                         else [silent_record w ds m kwargs p]) paths
  ↔ ∃ p, p ∈ paths ∧ reported m (result_path ds p) = false
         ∧ r = silent_record w ds m kwargs p.
Proof.
  rewrite list_elem_of_In, in_flat_map. split.
  - intros (p & Hp & Hr). exists p. apply list_elem_of_In in Hp.
    destruct (reported m _); [by destruct Hr|].
    destruct Hr as [<-|[]]. done.
  - intros (p & Hp & Hrep & ->). exists p. rewrite Hrep.
    split; [by apply list_elem_of_In | by left].
Qed.

End Reconcile.

(** Decides a closed statement about the demo world. *)
Ltac by_running := apply (bool_decide_unpack _); vm_compute; exact I.




(** ** Counting reports *)

Section Counting.

Lemma occurrences_app p (l1 l2 : list string) :
  occurrences p (l1 ++ l2) = occurrences p l1 + occurrences p l2.
Proof. unfold occurrences. by rewrite filter_app, length_app. Qed.


Lemma occurrences_cons p q (l : list string) :
  occurrences p (q :: l)
  = (if decide (q = p) then 1 else 0) + occurrences p l.
Proof. unfold occurrences. rewrite filter_cons. by case_decide. Qed.


Lemma occurrences_not_in p (l : list string) : p ∉ l → occurrences p l = 0.
Proof.
  induction l as [|q l IH]; [done|]. intros Hnin.
  rewrite occurrences_cons, IH.
  - case_decide; [|done]. subst. exfalso. apply Hnin, list_elem_of_here.
  - intros H. apply Hnin. by apply list_elem_of_further.
Qed.


Lemma occurrences_NoDup p (l : list string) :
  NoDup l → p ∈ l → occurrences p l = 1.
Proof.
  induction 1 as [|q l Hnin Hnd IH]; intros Hin.
  - by apply elem_of_nil in Hin.
  - rewrite occurrences_cons. case_decide as Heq.
    + subst. by rewrite occurrences_not_in.
    + apply elem_of_cons in Hin as [->|Hin]; [done|]. by rewrite IH.
Qed.



End Counting.

(** ** Every path handed over is reported *)

Section Completeness.

Context (w : World) (dataset : option DatasetArg) (check : bool).










End Completeness.




(* ===================================================================== *)
(** * Further properties of the module                                    *)
(* ===================================================================== *)

(** ** The payload of the records *)

Section Payload.

Context (w : World).

Lemma default_action_action kwargs :
  kw_action (default_action kwargs) = Some (default "drop" (kw_action kwargs)).
Proof.
  unfold default_action. destruct (kw_action kwargs) as [a|] eqn:Ha; [|done].
  by rewrite Ha.
Qed.

Lemma default_action_rest kwargs :
  kw_logger (default_action kwargs) = kw_logger kwargs
  ∧ kw_refds (default_action kwargs) = kw_refds kwargs.
Proof. unfold default_action. by destruct (kw_action kwargs). Qed.

Lemma silent_record_payload ds (m : gmap string (list string)) kwargs p :
  action (silent_record w ds m kwargs p) = kw_action kwargs
  ∧ logger (silent_record w ds m kwargs p) = kw_logger kwargs
  ∧ refds (silent_record w ds m kwargs p) = kw_refds kwargs.
Proof.
  unfold silent_record, noinfo_record.
  destruct (isdir w _); [|done].
  destruct (reported_under m "failure" _); [|done].
  by destruct (reported_under m "success" _).
Qed.

(** The records of [_drop_files], whichever branch is taken. *)
Lemma drop_files_records r ds paths check noannex_iserror kwargs :
  r ∈ yields (trace (_drop_files w ds paths check noannex_iserror kwargs)) →
  (∃ p, p ∈ assure_list paths
        ∧ r = noannex_record ds noannex_iserror kwargs p)
  ∨ (∃ res, r = annexjson2result w res ds (Some "file") (default_action kwargs))
  ∨ (∃ m p, p ∈ assure_list paths
            ∧ r = silent_record w ds m (default_action kwargs) p).
Proof.
  destruct (has_drop w ds) eqn:Hd.
  - rewrite drop_files_annex_yields, noinfo_records by done.
    intros [Hr|Hr]%elem_of_app.
    + right. left. unfold store_records in Hr.
      apply list_elem_of_fmap in Hr as (res & -> & _). by exists res.
    + right. right. apply elem_of_noinfo in Hr as (p & Hp & _ & ->).
      by eexists _, p.
  - rewrite drop_files_noannex by done. cbn [trace fst].
    rewrite yields_map_yield. intros Hr.
    apply list_elem_of_fmap in Hr as (p & -> & Hp). left. by exists p.
Qed.

Lemma drop_files_record_payload r ds paths check noannex_iserror kwargs :
  r ∈ yields (trace (_drop_files w ds paths check noannex_iserror kwargs)) →
  action r = kw_action (default_action kwargs)
  ∧ logger r = kw_logger (default_action kwargs)
  ∧ refds r = kw_refds (default_action kwargs).
Proof.
  intros Hr.
  apply drop_files_records in Hr
    as [(p & _ & ->)|[(res & ->)|(m & p & _ & ->)]].
  - done.
  - done.
  - apply silent_record_payload.
Qed.

End Payload.

(** X1: for a dataset whose repository has no [drop], every record
    [_drop_files] yields carries the caller's [action], or ['drop'] when the
    caller gave none, and the caller's [logger] and [refds]. *)
Theorem drop_files_payload (w : World) (ds : string) (paths : PathsArg)
        (check noannex_iserror : bool) (kwargs : Kwargs) (r : StatusRecord) :
  has_drop w ds = false →
  r ∈ yields (trace (_drop_files w ds paths check noannex_iserror kwargs)) →
  action r = Some (default "drop" (kw_action kwargs))
  ∧ logger r = kw_logger kwargs
  ∧ refds r = kw_refds kwargs.
Proof.
  intros Hd Hr. rewrite <- default_action_action.
  destruct (default_action_rest kwargs) as [<- <-].
  rewrite drop_files_noannex in Hr by done. cbn [trace fst] in Hr.
  rewrite yields_map_yield in Hr.
  by apply list_elem_of_fmap in Hr as (p & -> & _).
Qed.

Lemma drop_files_payload_witness :
  (has_drop Demo.world "/plain" = false
   ∧ {| action := Some "drop"; path := "/plain/plain.txt"; type_ := None;
        logger := None; refds := Some "/super"; status := notneeded;
        message := "no annex'ed content" |}
       ∈ yields (trace (_drop_files Demo.world "/plain" (PStr "plain.txt") true
                                    false (mkKwargs None None (Some "/super")))))
  ∧ Some "drop" = Some (default "drop" None).
Proof.
  assert ({| action := Some "drop"; path := "/plain/plain.txt"; type_ := None;
             logger := None; refds := Some "/super"; status := notneeded;
             message := "no annex'ed content" |}
            ∈ yields (trace (_drop_files Demo.world "/plain" (PStr "plain.txt")
                               true false
                               (mkKwargs None None (Some "/super")))))
    as Hin by by_running.
  split; [by split|].
  exact (proj1 (drop_files_payload Demo.world "/plain" (PStr "plain.txt") true
                  false (mkKwargs None None (Some "/super")) _ eq_refl Hin)).
Defined.

(** X2: every record [Drop.__call__] yields has the action ['drop'], the
    module's logger, and as [refds] the path of the dataset argument (none
    without a dataset): the payload is the same for the whole call. *)
Theorem call_payload (w : World) (path_arg : PathsArg)
        (dataset : option DatasetArg) (recursive : bool)
        (recursion_limit : option nat) (check : bool) (if_dirty : DirtyPolicy)
        (r : StatusRecord) :
  r ∈ yields (trace (Drop.__call__ w path_arg dataset recursive recursion_limit
                                   check if_dirty)) →
  action r = Some "drop"
  ∧ logger r = Some lgr
  ∧ refds r = dataset_path_or_self dataset.
Proof.
  rewrite call_shape. cbn [trace fst].
  rewrite yields_app, yields_map_yield.
  intros [Hr|Hr]%elem_of_app.
  - by apply list_elem_of_fmap in Hr as (p & -> & _).
  - change (yields (EvGuard ?ks ?m ?b :: ?tr)) with (yields tr) in Hr.
    destruct (outcome _); [by apply elem_of_nil in Hr|].
    apply elem_of_yields, per_dataset_elem in Hr as (ds & paths & _ & Hev).
    apply elem_of_yields in Hev.
    by apply drop_files_record_payload in Hev.
Qed.

Lemma call_payload_witness :
  {| action := Some "drop"; path := "/plain"; type_ := None;
     logger := Some lgr; refds := Some "/plain"; status := notneeded;
     message := "no annex'ed content" |}
    ∈ yields (trace (Drop.__call__ Demo.world PNone (Some (DsStr "/plain"))
                                   false None true if_dirty_save_before))
  ∧ Some "/plain" = dataset_path_or_self (Some (DsStr "/plain")).
Proof.
  assert ({| action := Some "drop"; path := "/plain"; type_ := None;
             logger := Some lgr; refds := Some "/plain"; status := notneeded;
             message := "no annex'ed content" |}
            ∈ yields (trace (Drop.__call__ Demo.world PNone
                               (Some (DsStr "/plain")) false None true
                               if_dirty_save_before)))
    as Hin by by_running.
  split; [exact Hin|].
  exact (proj2 (proj2 (call_payload Demo.world PNone (Some (DsStr "/plain"))
                         false None true if_dirty_save_before _ Hin))).
Defined.

(** ** Paths of the records *)

Section AbsolutePaths.

Lemma isabs_inv p : OsPath.isabs p = true → ∃ p', p = String "/" p'.
Proof.
  destruct p as [|c p]; [discriminate|].
  destruct c as [[] [] [] [] [] [] [] []]; try discriminate.
  intros _. by exists p.
Qed.

Lemma opj_abs a b : OsPath.isabs a = true → OsPath.isabs (OsPath.opj a b) = true.
Proof.
  intros [a' ->]%isabs_inv. unfold OsPath.opj.
  destruct (OsPath.isabs b) eqn:Hb; [done|].
  by destruct (_ || _).
Qed.

Lemma normpath_abs p :
  OsPath.isabs p = true → OsPath.isabs (OsPath.normpath p) = true.
Proof.
  intros [p' ->]%isabs_inv. unfold OsPath.normpath.
  change (String.eqb (String "/" p') "") with false.
  assert (OsPath.starts_with "/" (String "/" p') = true) as ->
    by (by destruct p').
  cbv iota. by destruct (_ && _).
Qed.

Lemma result_path_isabs ds p :
  OsPath.isabs ds = true → OsPath.isabs (result_path ds p) = true.
Proof.
  intros Hds. unfold result_path.
  destruct (OsPath.isabs p) eqn:Hp; [done|].
  by apply normpath_abs, opj_abs.
Qed.

End AbsolutePaths.

(** X3: when the dataset's path is absolute, the path of every record
    [_drop_files] yields is absolute: an absolute path is kept, a relative
    one is joined to the dataset's path and normalized. *)
Theorem drop_files_paths_absolute (w : World) (ds : string) (paths : PathsArg)
        (check noannex_iserror : bool) (kwargs : Kwargs) (r : StatusRecord) :
  OsPath.isabs ds = true →
  r ∈ yields (trace (_drop_files w ds paths check noannex_iserror kwargs)) →
  OsPath.isabs (path r) = true.
Proof.
  intros Hds Hr.
  apply drop_files_records in Hr
    as [(p & _ & ->)|[(res & ->)|(m & p & _ & ->)]].
  - by apply result_path_isabs.
  - by apply result_path_isabs.
  - rewrite silent_record_path. by apply result_path_isabs.
Qed.

Lemma drop_files_paths_absolute_witness :
  (OsPath.isabs "/plain" = true
   ∧ noannex_record "/plain" false (res_kwargs None) "sub/../plain.txt"
       ∈ yields (trace (_drop_files Demo.world "/plain"
                          (PList ["sub/../plain.txt"]) true false
                          (res_kwargs None))))
  ∧ path (noannex_record "/plain" false (res_kwargs None) "sub/../plain.txt")
    = "/plain/plain.txt"
  ∧ OsPath.isabs
      (path (noannex_record "/plain" false (res_kwargs None)
                            "sub/../plain.txt")) = true.
Proof.
  assert (noannex_record "/plain" false (res_kwargs None) "sub/../plain.txt"
            ∈ yields (trace (_drop_files Demo.world "/plain"
                               (PList ["sub/../plain.txt"]) true false
                               (res_kwargs None))))
    as Hin by by_running.
  split; [by split|]. split; [reflexivity|].
  exact (drop_files_paths_absolute Demo.world "/plain"
           (PList ["sub/../plain.txt"]) true false (res_kwargs None) _
           eq_refl Hin).
Defined.

(** ** The paths collected per status *)


(** X4: after the loop over the store's reports, [respath_by_status] holds
    under each key the paths of the reports whose status the table
    [success_status_map] sends to that key, in the order of the reports; a
    key no report is sent to is absent. *)
Theorem respath_by_status_lookup (w : World) (rs : list StatusRecord)
        (k : string) :
  respath_after w rs ∅ !! k
  = match map path (filter (fun r => success_status_map w (status r) = k) rs) with
    | [] => None
    | ps => Some ps
    end.
Proof.
  rewrite respath_after_lookup_from, lookup_empty.
  by destruct (map path _).
Qed.

(** The store of [/ds] reports a dropped file and a failure. *)
Example respath_by_status_demo :
  let rs := store_records Demo.world "/ds" (PList ["/ds/a.dat"; "/ds/subdir"])
                          true (res_kwargs None) in
  respath_after Demo.world rs ∅ !! "success" = Some ["/ds/a.dat"]
  ∧ respath_after Demo.world rs ∅ !! "failure" = Some ["/ds/subdir/b.dat"]
  ∧ respath_after Demo.world rs ∅ !! "other" = None.
Proof. cbv zeta. repeat split; vm_compute; reflexivity. Qed.

(** ** What each branch does not read *)

(** X5: for a dataset whose repository has no [drop], [check] makes no
    difference: the events and the end of [_drop_files] are the same with
    and without the availability check. *)
Theorem drop_files_check_unused (w : World) (ds : string) (paths : PathsArg)
        (check check' noannex_iserror : bool) (kwargs : Kwargs) :
  has_drop w ds = false →
  _drop_files w ds paths check noannex_iserror kwargs
  = _drop_files w ds paths check' noannex_iserror kwargs.
Proof. intros Hd. by rewrite !drop_files_noannex. Qed.

Lemma drop_files_check_unused_witness :
  has_drop Demo.world "/plain" = false
  ∧ _drop_files Demo.world "/plain" (PStr "plain.txt") true false
                (res_kwargs None)
    = _drop_files Demo.world "/plain" (PStr "plain.txt") false false
                  (res_kwargs None).
Proof.
  split; [reflexivity|].
  exact (drop_files_check_unused Demo.world "/plain" (PStr "plain.txt") true
           false false (res_kwargs None) eq_refl).
Defined.

(** X6: for a dataset whose repository has [drop], [noannex_iserror] makes
    no difference to what [_drop_files] does. *)
Theorem drop_files_noannex_iserror_unused (w : World) (ds : string)
        (paths : PathsArg) (check noannex_iserror noannex_iserror' : bool)
        (kwargs : Kwargs) :
  has_drop w ds = true →
  _drop_files w ds paths check noannex_iserror kwargs
  = _drop_files w ds paths check noannex_iserror' kwargs.
Proof. intros Hd. by rewrite !drop_files_annex. Qed.

Lemma drop_files_noannex_iserror_unused_witness :
  has_drop Demo.world "/ds" = true
  ∧ _drop_files Demo.world "/ds" (PList ["/ds/a.dat"; "/ds/git.txt"]) true true
                (res_kwargs None)
    = _drop_files Demo.world "/ds" (PList ["/ds/a.dat"; "/ds/git.txt"]) true
                  false (res_kwargs None).
Proof.
  split; [reflexivity|].
  exact (drop_files_noannex_iserror_unused Demo.world "/ds"
           (PList ["/ds/a.dat"; "/ds/git.txt"]) true true false
           (res_kwargs None) eq_refl).
Defined.

(** ** The store's reports and the reconciliation *)

(** X7: for a dataset whose repository has [drop], the store is called
    before anything is yielded; then come the store's reports, one record
    per report and in the store's order, each of type ['file'] and with the
    reported file resolved against the dataset; every record after them is
    about a requested path that no report was about. *)
Theorem drop_files_reports_then_silence (w : World) (ds : string)
        (paths : PathsArg) (check noannex_iserror : bool) (kwargs : Kwargs) :
  has_drop w ds = true →
  let raw := repo_drop w ds (assure_list paths) (drop_options check) in
  ∃ reports rest,
    trace (_drop_files w ds paths check noannex_iserror kwargs)
    = (EvStoreDrop ds (assure_list paths) (drop_options check)
         :: map (fun r => EvYield r) reports
         ++ map (fun r => EvYield r) rest)%list
    ∧ map (fun r => (path r, type_ r, status r)) reports
      = map (fun res => (result_path ds (raw_file res), Some "file",
                         status_of_code w (raw_code res))) raw
    ∧ ∀ r, r ∈ rest →
        (∃ p, p ∈ assure_list paths ∧ path r = result_path ds p)
        ∧ path r ∉ map path reports.
Proof.
  intros Hd raw.
  exists (store_records w ds paths check kwargs). eexists.
  split; [by rewrite drop_files_annex|]. split.
  - unfold store_records. by rewrite map_map.
  - intros r Hr. rewrite noinfo_records in Hr.
    apply elem_of_noinfo in Hr as (p & Hp & Hrep & ->).
    rewrite silent_record_path. split; [by exists p|].
    intros Hin. apply (reported_after_empty w) in Hin. congruence.
Qed.

Lemma drop_files_reports_then_silence_witness :
  has_drop Demo.world "/ds" = true
  ∧ ∃ reports rest,
      trace (_drop_files Demo.world "/ds" (PList ["/ds/a.dat"; "/ds/git.txt"])
                         false false (res_kwargs None))
      = (EvStoreDrop "/ds" ["/ds/a.dat"; "/ds/git.txt"] ["--force"]
           :: map (fun r => EvYield r) reports
           ++ map (fun r => EvYield r) rest)%list
      ∧ map (fun r => (path r, type_ r, status r)) reports
        = map (fun res => (result_path "/ds" (raw_file res), Some "file",
                           status_of_code Demo.world (raw_code res)))
              (repo_drop Demo.world "/ds" ["/ds/a.dat"; "/ds/git.txt"]
                         ["--force"])
      ∧ ∀ r, r ∈ rest →
          (∃ p, p ∈ ["/ds/a.dat"; "/ds/git.txt"]
                ∧ path r = result_path "/ds" p)
          ∧ path r ∉ map path reports.
Proof.
  split; [reflexivity|].
  exact (drop_files_reports_then_silence Demo.world "/ds"
           (PList ["/ds/a.dat"; "/ds/git.txt"]) false false (res_kwargs None)
           eq_refl).
Defined.

(** ** The datasets of a call *)

Section Datasets.

Context (w : World) (dataset : option DatasetArg) (check : bool).

Lemma drop_files_store_calls ds paths noannex_iserror kwargs :
  store_calls (trace (_drop_files w ds paths check noannex_iserror kwargs))
  = if has_drop w ds then [(ds, assure_list paths, drop_options check)] else [].
Proof.
  destruct (has_drop w ds) eqn:Hd.
  - rewrite drop_files_annex by done. cbn [trace fst].
    change (?ev :: ?l1 ++ ?l2)%list with ([ev] ++ (l1 ++ l2))%list.
    by rewrite !store_calls_app, !(store_calls_map_yield (fun r => r)).
  - rewrite drop_files_noannex by done. apply store_calls_map_yield.
Qed.

Lemma per_dataset_store_calls (groups : list (string * list string)) :
  store_calls (per_dataset w dataset check groups)
  = map (fun g : string * list string => (fst g, snd g, drop_options check))
        (filter (fun g : string * list string => has_drop w (fst g) = true)
                groups).
Proof.
  induction groups as [|[ds paths] groups IH]; [done|].
  rewrite per_dataset_cons, store_calls_app, drop_files_store_calls, IH.
  rewrite filter_cons. cbn [fst snd assure_list].
  case_decide as Hd; [by rewrite Hd|].
  by apply not_true_is_false in Hd as ->.
Qed.

Lemma per_dataset_yields (groups : list (string * list string)) :
  yields (per_dataset w dataset check groups)
  = flat_map (fun g : string * list string =>
                yields (trace (_drop_files w (fst g) (PList (snd g)) check
                                           false (res_kwargs dataset))))
             groups.
Proof.
  induction groups as [|g groups IH]; [done|].
  by rewrite per_dataset_cons, yields_app, IH.
Qed.

End Datasets.

(** X9: in a call that runs to its end, the store is called once for every
    dataset of [content_by_ds] whose repository has [drop], in the order of
    [content_by_ds], on exactly the paths of that dataset and with the same
    options everywhere; the other datasets cause no store call. *)
Theorem call_store_calls (w : World) (path_arg : PathsArg)
        (dataset : option DatasetArg) (recursive : bool)
        (recursion_limit : option nat) (check : bool) (if_dirty : DirtyPolicy) :
  let g := Drop.__call__ w path_arg dataset recursive recursion_limit check
                         if_dirty in
  let groups := fst (grouping w path_arg dataset recursive recursion_limit) in
  outcome g = inr tt →
  store_calls (trace g)
  = map (fun d : string * list string => (fst d, snd d, drop_options check))
        (filter (fun d : string * list string => has_drop w (fst d) = true)
                groups).
Proof.
  intros g groups. subst g. rewrite call_shape. fold groups.
  cbn [trace outcome fst snd].
  destruct (outcome _) as [e|[]]; [discriminate|]. intros _.
  rewrite store_calls_app, store_calls_map_yield.
  change (store_calls (EvGuard ?ks ?m ?b :: ?tr)) with (store_calls tr).
  apply per_dataset_store_calls.
Qed.

Lemma call_store_calls_witness :
  outcome (Drop.__call__ Demo.world Demo.request None false None false
                         if_dirty_fail) = inr tt
  ∧ store_calls (trace (Drop.__call__ Demo.world Demo.request None false None
                                      false if_dirty_fail))
    = [("/ds", ["/ds/a.dat"; "/ds/subdir"; "/ds/git.txt"], ["--force"])].
Proof.
  split; [reflexivity|].
  exact (call_store_calls Demo.world Demo.request None false None false
           if_dirty_fail eq_refl).
Defined.

(** X10: in a call that runs to its end, the records are those of the
    unavailable paths followed by the records of [_drop_files] for each
    dataset of [content_by_ds], dataset after dataset in its order. *)
Theorem call_records_in_order (w : World) (path_arg : PathsArg)
        (dataset : option DatasetArg) (recursive : bool)
        (recursion_limit : option nat) (check : bool) (if_dirty : DirtyPolicy) :
  let g := Drop.__call__ w path_arg dataset recursive recursion_limit check
                         if_dirty in
  let groups := fst (grouping w path_arg dataset recursive recursion_limit) in
  let unavailable := snd (grouping w path_arg dataset recursive recursion_limit) in
  outcome g = inr tt →
  yields (trace g)
  = (map (unavailable_record dataset) unavailable
     ++ flat_map (fun d : string * list string =>
                    yields (trace (_drop_files w (fst d) (PList (snd d)) check
                                               false (res_kwargs dataset))))
                 groups)%list.
Proof.
  intros g groups unavailable. subst g. rewrite call_shape.
  fold groups unavailable. cbn [trace outcome fst snd].
  destruct (outcome _) as [e|[]]; [discriminate|]. intros _.
  rewrite yields_app, yields_map_yield.
  change (yields (EvGuard ?ks ?m ?b :: ?tr)) with (yields tr).
  by rewrite per_dataset_yields.
Qed.

Lemma call_records_in_order_witness :
  outcome (Drop.__call__ Demo.world Demo.request None false None true
                         if_dirty_ignore) = inr tt
  ∧ map (fun r => (path r, status r))
        (yields (trace (Drop.__call__ Demo.world Demo.request None false None
                                      true if_dirty_ignore)))
    = [ ("/ds/missing.txt", notneeded); ("/ds/a.dat", ok);
        ("/ds/subdir/b.dat", error); ("/ds/subdir", impossible);
        ("/ds/git.txt", notneeded); ("/plain/plain.txt", notneeded) ].
Proof.
  split; [reflexivity|].
  rewrite (call_records_in_order Demo.world Demo.request None false None true
             if_dirty_ignore eq_refl).
  reflexivity.
Defined.
